(** * imm.samplers.noncollapsed: the compatibility layer of the samplers

    The module binds three generic MCMC algorithms to the process models
    and mixture models they may be used with.  Each concrete sampler class
    carries two class attributes, [compatible_process_models] and
    [compatible_mixture_models], both Python sets of classes.

    The first part of this development embeds those declarations.  The
    second part models the inherited [infer] entry point (validation,
    iteration loop, trace) whose code lives in the [generic] module. *)

From stdpp Require Import gmap strings list.
From Stdlib Require Import ZArith Lia.

(** ** Model classes

    [from ..models import DP, MFM] and the three Gaussian mixtures.  Python
    is dynamically typed: a caller may hand a sampler an instance of any
    class, so each universe has one more inhabitant family for the classes
    this module does not name. *)

Inductive ProcessModel : Type :=
| DP
| MFM
| OtherProcess (cls : string).

Inductive MixtureModel : Type :=
| CollapsedConjugateGaussianMixture
| ConjugateGaussianMixture
| NonconjugateGaussianMixture
| OtherMixture (cls : string).

(** The three concrete sampler classes of the module. *)
Inductive Sampler : Type :=
| GibbsSampler
| RGMSSampler
| SliceSampler.

#[global] Instance ProcessModel_eq_dec : EqDecision ProcessModel.
Proof. solve_decision. Defined.

#[global] Instance MixtureModel_eq_dec : EqDecision MixtureModel.
Proof. solve_decision. Defined.

#[global] Instance Sampler_eq_dec : EqDecision Sampler.
Proof. solve_decision. Defined.

Definition ProcessModel_code (p : ProcessModel) : bool + string :=
  match p with
  | DP => inl true
  | MFM => inl false
  | OtherProcess c => inr c
  end.

Definition ProcessModel_of_code (c : bool + string) : ProcessModel :=
  match c with
  | inl true => DP
  | inl false => MFM
  | inr c => OtherProcess c
  end.

#[global] Instance ProcessModel_countable : Countable ProcessModel.
Proof.
  apply (inj_countable' ProcessModel_code ProcessModel_of_code).
  intros []; reflexivity.
Defined.

Definition MixtureModel_code (m : MixtureModel) : option bool + string :=
  match m with
  | CollapsedConjugateGaussianMixture => inl None
  | ConjugateGaussianMixture => inl (Some true)
  | NonconjugateGaussianMixture => inl (Some false)
  | OtherMixture c => inr c
  end.

Definition MixtureModel_of_code (c : option bool + string) : MixtureModel :=
  match c with
  | inl None => CollapsedConjugateGaussianMixture
  | inl (Some true) => ConjugateGaussianMixture
  | inl (Some false) => NonconjugateGaussianMixture
  | inr c => OtherMixture c
  end.

#[global] Instance MixtureModel_countable : Countable MixtureModel.
Proof.
  apply (inj_countable' MixtureModel_code MixtureModel_of_code).
  intros []; reflexivity.
Defined.

(** ** The declared compatibility sets

    One equation per class attribute; [set([a, b])] is [list_to_set [a; b]]. *)

Definition compatible_process_models (s : Sampler) : gset ProcessModel :=
  match s with
  | GibbsSampler => list_to_set [DP; MFM]
  | RGMSSampler => list_to_set [DP; MFM]
  | SliceSampler => list_to_set [DP]
  end.

Definition compatible_mixture_models (s : Sampler) : gset MixtureModel :=
  match s with
  | GibbsSampler =>
      list_to_set [CollapsedConjugateGaussianMixture;
                   ConjugateGaussianMixture;
                   NonconjugateGaussianMixture]
  | RGMSSampler =>
      list_to_set [ConjugateGaussianMixture; NonconjugateGaussianMixture]
  | SliceSampler =>
      list_to_set [ConjugateGaussianMixture; NonconjugateGaussianMixture]
  end.

(** ** Assignment vectors and the retirement of empty clusters

    The assignment vector and the clusters are data of the generic
    samplers (module [generic]), whose code is not part of the sources at
    hand; the definitions of this part follow the data model of the
    specification. *)

(** Modelled from the spec: the distinct labels in use in an assignment
    vector, which holds one cluster label per observation. *)
Definition labels (c : list nat) : gset nat := list_to_set c.

(** Modelled from the spec: the number of distinct labels in use. *)
Definition cluster_count (c : list nat) : nat := size (labels c).


(** Modelled from the spec: the relabelling step of the generic samplers
    (module [generic], not part of the sources at hand).  The data model
    asks that clusters which became empty are retired and the remaining
    ones relabelled so that no vacated label is left dangling.  A label is
    sent to the number of labels in use below it, which keeps the order of
    the surviving clusters. *)
Definition rank (c : list nat) (l : nat) : nat :=
  size (filter (λ j, j < l) (labels c)).

(** Modelled from the spec: the assignment vector after the empty
    clusters have been retired. *)
Definition retire (c : list nat) : list nat := rank c <$> c.

(** ** Errors and the checking monad *)

(** Modelled from the spec: the parameters whose validation can fail; the
    validation code is in the [generic] module, not in the sources at
    hand. *)
Inductive ParameterName : Type :=
| param_m
| param_scheme
| param_max_iter
| param_warmup
| param_c_n.

(** Modelled from the spec: what an [IncompatibleModelError] reports, the
    offending model class and the set it should have belonged to. *)
Inductive Incompatibility : Type :=
| ProcessNotAllowed (offending : ProcessModel) (allowed : gset ProcessModel)
| MixtureNotAllowed (offending : MixtureModel) (allowed : gset MixtureModel).

(** Modelled from the spec: the two error kinds raised by validation. *)
Inductive Error : Type :=
| InvalidParameterError (p : ParameterName)
| IncompatibleModelError (why : Incompatibility).

#[global] Instance Checked_ret : MRet (sum Error) := λ A a, inr a.

#[global] Instance Checked_bind : MBind (sum Error) :=
  λ A B f m, match m with inl e => inl e | inr a => f a end.

(** [require b e] raises [e] unless [b] holds. *)
Definition require (b : bool) (e : Error) : Error + unit :=
  if b then inr () else inl e.

(** ** The arguments of [infer]

    The signatures differ between the classes (see the docstrings):
    [GibbsSampler.infer] takes [m], [RGMSSampler.infer] takes [m] and
    [scheme], [SliceSampler.infer] takes neither.  [None] stands for an
    argument left out by the caller. *)

(** Modelled from the spec: the keyword arguments particular to each
    class, as the docstrings list them under Methods. *)
Definition Options (k : Sampler) : Type :=
  match k with
  | GibbsSampler => option Z
  | RGMSSampler => option Z * option (list Z)
  | SliceSampler => unit
  end.

(** Modelled from the spec: the argument [m] of a call; the outer
    [option] tells whether the signature has the keyword at all. *)
Definition arg_m {k : Sampler} : Options k → option (option Z) :=
  match k with
  | GibbsSampler => λ o, Some o
  | RGMSSampler => λ o, Some (fst o)
  | SliceSampler => λ _, None
  end.

(** Modelled from the spec: the argument [scheme] of a call. *)
Definition arg_scheme {k : Sampler} : Options k → option (option (list Z)) :=
  match k with
  | GibbsSampler => λ _, None
  | RGMSSampler => λ o, Some (snd o)
  | SliceSampler => λ _, None
  end.

(** Modelled from the spec: the defaults, which the generic samplers
    apply and the docstrings of this module document: "Default is 10",
    "Default is (5,1,1,5)", "Default is 1000", "Default is max_iter / 2"
    (a division of integers). *)
Definition default_m : Z := 10.

Definition default_scheme : list Z := [5; 1; 1; 5]%Z.

Definition default_max_iter : Z := 1000.

Definition default_warmup (max_iter : Z) : Z := (max_iter / 2)%Z.

(** Modelled from the spec: the values a call runs with, the given
    argument or else the default. *)
Definition resolved_m {k : Sampler} (o : Options k) : option Z :=
  default default_m <$> arg_m o.

Definition resolved_scheme {k : Sampler} (o : Options k) : option (list Z) :=
  default default_scheme <$> arg_scheme o.

Definition resolved_max_iter (max_iter : option Z) : Z :=
  default default_max_iter max_iter.

Definition resolved_warmup (max_iter warmup : option Z) : Z :=
  default (default_warmup (resolved_max_iter max_iter)) warmup.

(** Modelled from the spec: a scheme is a 4-tuple of non-negative
    integers. *)
Definition well_formed_scheme (s : list Z) : bool :=
  (length s =? 4) && forallb (Z.leb 0) s.

(** Modelled from the spec: what validation hands to the loop. *)
Record Plan : Type := {
  plan_m : option Z;
  plan_scheme : option (list Z);
  plan_max_iter : nat;
  plan_warmup : nat
}.

Definition plan_of {k : Sampler} (o : Options k)
    (max_iter warmup : option Z) : Plan :=
  {| plan_m := resolved_m o;
     plan_scheme := resolved_scheme o;
     plan_max_iter := Z.to_nat (resolved_max_iter max_iter);
     plan_warmup := Z.to_nat (resolved_warmup max_iter warmup) |}.

(** Modelled from the spec: the constraints on a call, as the docstrings
    and the interface description state them, and their failure. *)
Definition valid_parameters {k : Sampler} {Obs : Type} (o : Options k)
    (x_n : list Obs) (c_n : list nat) (max_iter warmup : option Z) : Prop :=
  (∀ m, resolved_m o = Some m → (0 < m)%Z) ∧
  (∀ s, resolved_scheme o = Some s →
        length s = 4 ∧ Forall (λ z, (0 ≤ z)%Z) s) ∧
  (0 < resolved_max_iter max_iter)%Z ∧
  (0 ≤ resolved_warmup max_iter warmup < resolved_max_iter max_iter)%Z ∧
  length x_n = length c_n.

Definition invalid_parameters {k : Sampler} {Obs : Type} (o : Options k)
    (x_n : list Obs) (c_n : list nat) (max_iter warmup : option Z) : Prop :=
  (∃ m, resolved_m o = Some m ∧ (m ≤ 0)%Z) ∨
  (∃ s, resolved_scheme o = Some s ∧
        ¬ (length s = 4 ∧ Forall (λ z, (0 ≤ z)%Z) s)) ∨
  (resolved_max_iter max_iter ≤ 0)%Z ∨
  ¬ (0 ≤ resolved_warmup max_iter warmup < resolved_max_iter max_iter)%Z ∨
  length x_n ≠ length c_n.

(** ** Samplers, chains and traces *)

(** Modelled from the spec: a sampler instance, its class and the two
    models it was built with. *)
Record SamplerObject (PM MM : Type) : Type := {
  sampler_class : Sampler;
  process_model : PM;
  mixture_model : MM
}.
Arguments sampler_class {PM MM} _.
Arguments process_model {PM MM} _.
Arguments mixture_model {PM MM} _.
Arguments Build_SamplerObject {PM MM} _ _ _.

(** Modelled from the spec: the state of the Markov chain, that is the
    assignment vector, the arena of cluster slots indexed by label, and
    the generator. *)
Record Chain (Cluster Gen : Type) : Type := {
  assignment : list nat;
  clusters : list Cluster;
  generator : Gen
}.
Arguments assignment {Cluster Gen} _.
Arguments clusters {Cluster Gen} _.
Arguments generator {Cluster Gen} _.
Arguments Build_Chain {Cluster Gen} _ _ _.

(** Modelled from the spec: one trace entry, the assignment and, unless
    the mixture model is collapsed, the cluster parameters. *)
Definition Snapshot (Cluster : Type) : Type :=
  (list nat * option (list Cluster))%type.

(** Modelled from the spec: the sampler run state, the chain with the
    iteration counter and the trace. *)
Record RunState (Cluster Gen : Type) : Type := {
  chain : Chain Cluster Gen;
  iteration : nat;
  trace : list (Snapshot Cluster)
}.
Arguments chain {Cluster Gen} _.
Arguments iteration {Cluster Gen} _.
Arguments trace {Cluster Gen} _.
Arguments Build_RunState {Cluster Gen} _ _ _.

(** Modelled from the spec: what a call of [infer] amounts to, the trace
    or the error raised, and how many iterations had run by then. *)
Record Outcome (Cluster : Type) : Type := {
  outcome : Error + list (Snapshot Cluster);
  iterations_run : nat
}.
Arguments outcome {Cluster} _.
Arguments iterations_run {Cluster} _.
Arguments Build_Outcome {Cluster} _ _.

(** Modelled from the spec: the [random_state] argument, left out, a
    seed, or a generator in a given state. *)
Inductive RandomState (Gen : Type) : Type :=
| Unseeded
| Seed (s : Z)
| Handle (g : Gen).
Arguments Unseeded {Gen}.
Arguments Seed {Gen} _.
Arguments Handle {Gen} _.

(** Modelled from the spec: the collapsed mixture model integrates the
    cluster parameters out and so has none to record. *)
Definition is_collapsed (m : MixtureModel) : bool :=
  match m with
  | CollapsedConjugateGaussianMixture => true
  | _ => false
  end.

(** Modelled from the spec: the arena after retirement, the slots whose
    label still has a member, in label order. *)
Definition retire_clusters {Cluster : Type}
    (c : list nat) (slots : list Cluster) : list Cluster :=
  snd <$> filter (λ p, fst p ∈ c) (imap pair slots).

(** ** The inherited entry point

    The collaborators are kept abstract: the model instances [PM] and [MM]
    with the classes they belong to, the observations [Obs], the state
    [Cluster] a mixture model keeps per cluster, the generator states
    [Gen], and the stochastic moves of one iteration, [sweep], which may
    leave any assignment behind. *)

Section Inference.
Context {PM MM Obs Cluster Gen : Type}.
Variable type_of_process : PM → ProcessModel.
Variable type_of_mixture : MM → MixtureModel.
Variable seed_generator : Z → Gen.
Variable initial_clusters :
  SamplerObject PM MM → list Obs → list nat → Gen → list Cluster * Gen.
Variable sweep :
  SamplerObject PM MM → Plan → list Obs →
  Chain Cluster Gen → Chain Cluster Gen.

(** Modelled from the spec: the compatibility check of the generic
    sampler base class (module [generic]).  The concrete type of each
    model must belong to the set the sampler class declares; the error
    names the offending class and the allowed set. *)
Definition check_compatibility (k : Sampler) (pm : PM) (mm : MM)
    : Error + unit :=
  require (bool_decide (type_of_process pm ∈ compatible_process_models k))
    (IncompatibleModelError
       (ProcessNotAllowed (type_of_process pm)
          (compatible_process_models k))) ;;
  require (bool_decide (type_of_mixture mm ∈ compatible_mixture_models k))
    (IncompatibleModelError
       (MixtureNotAllowed (type_of_mixture mm)
          (compatible_mixture_models k))).

(** Modelled from the spec: the constructor inherited from the generic
    base class; it validates the two models and stores them. *)
Definition new_sampler (k : Sampler) (pm : PM) (mm : MM)
    : Error + SamplerObject PM MM :=
  check_compatibility k pm mm ;;
  mret (Build_SamplerObject k pm mm).

(** Modelled from the spec: the parameter checks at the head of [infer]
    (module [generic]).  The bounds are those of the docstrings: [m] and
    [max_iter] larger than 0, [warmup] non-negative and smaller than
    [max_iter]; [c_n] holds one label per observation. *)
Definition validate_parameters {k : Sampler} (o : Options k)
    (x_n : list Obs) (c_n : list nat) (max_iter warmup : option Z)
    : Error + Plan :=
  let mi := resolved_max_iter max_iter in
  let wu := resolved_warmup max_iter warmup in
  require (from_option (Z.ltb 0) true (resolved_m o))
    (InvalidParameterError param_m) ;;
  require (from_option well_formed_scheme true (resolved_scheme o))
    (InvalidParameterError param_scheme) ;;
  require (0 <? mi)%Z (InvalidParameterError param_max_iter) ;;
  require ((0 <=? wu)%Z && (wu <? mi)%Z)
    (InvalidParameterError param_warmup) ;;
  require (length x_n =? length c_n) (InvalidParameterError param_c_n) ;;
  mret (plan_of o max_iter warmup).

(** Modelled from the spec: the generator a run draws from.  A seed
    makes a fresh generator, a handle is used as it is, and without
    either the run draws from the ambient source of the process. *)
Definition resolve_generator (ambient : Gen) (rs : RandomState Gen) : Gen :=
  match rs with
  | Unseeded => ambient
  | Seed s => seed_generator s
  | Handle g => g
  end.

(** Modelled from the spec: one iteration, the moves of the sampler
    followed by the retirement of the clusters they emptied. *)
Definition iterate (self : SamplerObject PM MM) (plan : Plan)
    (x_n : list Obs) (ch : Chain Cluster Gen) : Chain Cluster Gen :=
  let ch' := sweep self plan x_n ch in
  {| assignment := retire (assignment ch');
     clusters := retire_clusters (assignment ch') (clusters ch');
     generator := generator ch' |}.

(** Modelled from the spec: the snapshot taken for the trace. *)
Definition snapshot (self : SamplerObject PM MM) (ch : Chain Cluster Gen)
    : Snapshot Cluster :=
  (assignment ch,
   if is_collapsed (type_of_mixture (mixture_model self)) then None
   else Some (clusters ch)).

(** Modelled from the spec: the body of the loop.  The counter is
    advanced and, once the warm-up boundary has passed, a snapshot is
    appended to the trace. *)
Definition advance (self : SamplerObject PM MM) (plan : Plan)
    (x_n : list Obs) (st : RunState Cluster Gen) : RunState Cluster Gen :=
  let ch := iterate self plan x_n (chain st) in
  let n := S (iteration st) in
  {| chain := ch;
     iteration := n;
     trace := if bool_decide (plan_warmup plan < n)
              then trace st ++ [snapshot self ch]
              else trace st |}.

(** Modelled from the spec: the loop over the iteration budget. *)
Fixpoint run (self : SamplerObject PM MM) (plan : Plan) (x_n : list Obs)
    (budget : nat) (st : RunState Cluster Gen) : RunState Cluster Gen :=
  match budget with
  | 0 => st
  | S budget' => run self plan x_n budget' (advance self plan x_n st)
  end.

(** Modelled from the spec: the run state before the first iteration. *)
Definition start (self : SamplerObject PM MM) (x_n : list Obs)
    (c_n : list nat) (g : Gen) : RunState Cluster Gen :=
  let slots := initial_clusters self x_n c_n g in
  {| chain := {| assignment := c_n;
                 clusters := fst slots;
                 generator := snd slots |};
     iteration := 0;
     trace := [] |}.

(** Modelled from the spec: [infer] of the generic samplers (module
    [generic], inherited unchanged by the three classes).  All
    validation comes first; only then is the run state created and the
    loop entered. *)
Definition infer (ambient : Gen) (self : SamplerObject PM MM)
    (x_n : list Obs) (c_n : list nat) (o : Options (sampler_class self))
    (max_iter warmup : option Z) (random_state : RandomState Gen)
    : Outcome Cluster :=
  match
    check_compatibility (sampler_class self)
      (process_model self) (mixture_model self) ;;
    validate_parameters o x_n c_n max_iter warmup
  with
  | inl e => {| outcome := inl e; iterations_run := 0 |}
  | inr plan =>
      let st := run self plan x_n (plan_max_iter plan)
                  (start self x_n c_n
                     (resolve_generator ambient random_state)) in
      {| outcome := inr (trace st); iterations_run := iteration st |}
  end.

(** Modelled from the spec: the chain after [n] iterations of a run that
    starts from [ch]. *)
Definition chain_after (self : SamplerObject PM MM) (plan : Plan)
    (x_n : list Obs) (ch : Chain Cluster Gen) (n : nat)
    : Chain Cluster Gen :=
  Nat.iter n (iterate self plan x_n) ch.

End Inference.

(** ** A concrete instantiation

    Small collaborators on which the model can be run: a model instance is
    its class, observations, cluster parameters and generator states are
    integers, and a sweep moves the first observation to a cluster of its
    own, which may empty the cluster it leaves. *)

Module Walkthrough.

Definition class_of_process (p : ProcessModel) : ProcessModel := p.

Definition class_of_mixture (m : MixtureModel) : MixtureModel := m.

Definition seed (s : Z) : Z := s.

Definition slots_for (self : SamplerObject ProcessModel MixtureModel)
    (x_n : list Z) (c_n : list nat) (g : Z) : list Z * Z :=
  (replicate (S (max_list c_n)) g, g).

Definition open_cluster (self : SamplerObject ProcessModel MixtureModel)
    (plan : Plan) (x_n : list Z) (ch : Chain Z Z) : Chain Z Z :=
  {| assignment := <[0 := length (clusters ch)]> (assignment ch);
     clusters := clusters ch ++ [generator ch];
     generator := (generator ch + 1)%Z |}.

Definition construct :=
  new_sampler class_of_process class_of_mixture.

Definition call :=
  infer class_of_process class_of_mixture seed slots_for open_cluster.

Definition gibbs_dp_conjugate : SamplerObject ProcessModel MixtureModel :=
  Build_SamplerObject GibbsSampler DP ConjugateGaussianMixture.

End Walkthrough.

(** * Properties *)

(** ** The declared sets *)

(** Membership in a declared set, unfolded to a disjunction of equalities. *)

Lemma compatible_process_models_spec (s : Sampler) (p : ProcessModel) :
  p ∈ compatible_process_models s ↔
  match s with
  | GibbsSampler | RGMSSampler => p = DP ∨ p = MFM
  | SliceSampler => p = DP
  end.
Proof.
  destruct s; cbn [compatible_process_models compatible_mixture_models];
    rewrite elem_of_list_to_set, !elem_of_cons, elem_of_nil; tauto.
Qed.

Lemma compatible_mixture_models_spec (s : Sampler) (m : MixtureModel) :
  m ∈ compatible_mixture_models s ↔
  match s with
  | GibbsSampler =>
      m = CollapsedConjugateGaussianMixture ∨
      m = ConjugateGaussianMixture ∨ m = NonconjugateGaussianMixture
  | RGMSSampler | SliceSampler =>
      m = ConjugateGaussianMixture ∨ m = NonconjugateGaussianMixture
  end.
Proof.
  destruct s; cbn [compatible_process_models compatible_mixture_models];
    rewrite elem_of_list_to_set, !elem_of_cons, elem_of_nil; tauto.
Qed.

(** ** Retirement of empty clusters *)

Section Retire.
Implicit Types (c : list nat) (l i : nat).

Lemma elem_of_labels c l : l ∈ labels c ↔ l ∈ c.
Proof. apply elem_of_list_to_set. Qed.











End Retire.

(** ** Validation *)

Section Validation.
Context {PM MM Obs : Type}.
Variable type_of_process : PM → ProcessModel.
Variable type_of_mixture : MM → MixtureModel.

Lemma require_inr (b : bool) (e : Error) : require b e = inr () ↔ b = true.
Proof. destruct b; simpl; split; congruence. Qed.

Lemma check_compatibility_process (k : Sampler) (pm : PM) (mm : MM) :
  type_of_process pm ∉ compatible_process_models k →
  check_compatibility type_of_process type_of_mixture k pm mm =
    inl (IncompatibleModelError
           (ProcessNotAllowed (type_of_process pm)
              (compatible_process_models k))).
Proof.
  intros Hp. unfold check_compatibility.
  by rewrite (bool_decide_eq_false_2 _ Hp).
Qed.

Lemma check_compatibility_mixture (k : Sampler) (pm : PM) (mm : MM) :
  type_of_process pm ∈ compatible_process_models k →
  type_of_mixture mm ∉ compatible_mixture_models k →
  check_compatibility type_of_process type_of_mixture k pm mm =
    inl (IncompatibleModelError
           (MixtureNotAllowed (type_of_mixture mm)
              (compatible_mixture_models k))).
Proof.
  intros Hp Hm. unfold check_compatibility.
  by rewrite (bool_decide_eq_true_2 _ Hp), (bool_decide_eq_false_2 _ Hm).
Qed.

Lemma check_compatibility_pass (k : Sampler) (pm : PM) (mm : MM) :
  type_of_process pm ∈ compatible_process_models k →
  type_of_mixture mm ∈ compatible_mixture_models k →
  check_compatibility type_of_process type_of_mixture k pm mm = inr ().
Proof.
  intros Hp Hm. unfold check_compatibility.
  by rewrite (bool_decide_eq_true_2 _ Hp), (bool_decide_eq_true_2 _ Hm).
Qed.

(** Either check failing makes the whole check fail, and the error names
    the model that is at fault together with the declared set. *)
Lemma check_compatibility_fail (k : Sampler) (pm : PM) (mm : MM) :
  type_of_process pm ∉ compatible_process_models k ∨
  type_of_mixture mm ∉ compatible_mixture_models k →
  ∃ why,
    check_compatibility type_of_process type_of_mixture k pm mm =
      inl (IncompatibleModelError why) ∧
    (why = ProcessNotAllowed (type_of_process pm)
             (compatible_process_models k) ∧
     type_of_process pm ∉ compatible_process_models k
     ∨
     why = MixtureNotAllowed (type_of_mixture mm)
             (compatible_mixture_models k) ∧
     type_of_mixture mm ∉ compatible_mixture_models k).
Proof.
  intros Hbad.
  destruct (decide (type_of_process pm ∈ compatible_process_models k))
    as [Hp | Hp].
  - destruct Hbad as [Hbad | Hm]; [done |].
    eexists. split; [by apply check_compatibility_mixture |]. by right.
  - eexists. split; [by apply check_compatibility_process |]. by left.
Qed.

Lemma new_sampler_inr (k : Sampler) (pm : PM) (mm : MM)
    (self : SamplerObject PM MM) :
  new_sampler type_of_process type_of_mixture k pm mm = inr self →
  self = Build_SamplerObject k pm mm ∧
  type_of_process pm ∈ compatible_process_models k ∧
  type_of_mixture mm ∈ compatible_mixture_models k.
Proof.
  unfold new_sampler, check_compatibility. intros H.
  destruct (decide (type_of_process pm ∈ compatible_process_models k))
    as [Hp | Hp].
  2: { by rewrite (bool_decide_eq_false_2 _ Hp) in H. }
  destruct (decide (type_of_mixture mm ∈ compatible_mixture_models k))
    as [Hm | Hm].
  2: { by rewrite (bool_decide_eq_true_2 _ Hp),
          (bool_decide_eq_false_2 _ Hm) in H. }
  rewrite (bool_decide_eq_true_2 _ Hp), (bool_decide_eq_true_2 _ Hm) in H.
  by injection H as <-.
Qed.

Lemma well_formed_scheme_spec (s : list Z) :
  well_formed_scheme s = true ↔ length s = 4 ∧ Forall (λ z, (0 ≤ z)%Z) s.
Proof.
  unfold well_formed_scheme.
  rewrite andb_true_iff, Nat.eqb_eq, forallb_forall, Forall_forall.
  split; intros [Hlen Hall]; (split; [done |]); intros z Hz.
  - apply Z.leb_le, Hall. by apply list_elem_of_In.
  - apply Z.leb_le, Hall. by apply list_elem_of_In.
Qed.

Lemma validate_parameters_valid {k : Sampler} (o : Options k)
    (x_n : list Obs) (c_n : list nat) (max_iter warmup : option Z) :
  valid_parameters o x_n c_n max_iter warmup →
  validate_parameters o x_n c_n max_iter warmup =
    inr (plan_of o max_iter warmup).
Proof.
  intros (Hm & Hs & Hmi & Hwu & Hlen). unfold validate_parameters.
  assert (from_option (Z.ltb 0) true (resolved_m o) = true) as ->.
  { destruct (resolved_m o) as [m |]; [| done]. simpl.
    apply Z.ltb_lt. by apply Hm. }
  assert (from_option well_formed_scheme true (resolved_scheme o) = true)
    as ->.
  { destruct (resolved_scheme o) as [s |]; [| done]. simpl.
    apply well_formed_scheme_spec. by apply Hs. }
  simpl.
  rewrite (proj2 (Z.ltb_lt _ _) Hmi). simpl.
  rewrite (proj2 (Z.leb_le _ _) (proj1 Hwu)),
    (proj2 (Z.ltb_lt _ _) (proj2 Hwu)). simpl.
  by rewrite (proj2 (Nat.eqb_eq _ _) Hlen).
Qed.

Lemma validate_parameters_invalid {k : Sampler} (o : Options k)
    (x_n : list Obs) (c_n : list nat) (max_iter warmup : option Z) :
  invalid_parameters o x_n c_n max_iter warmup →
  ∃ p, validate_parameters o x_n c_n max_iter warmup =
         inl (InvalidParameterError p).
Proof.
  intros Hbad. unfold validate_parameters.
  destruct (from_option (Z.ltb 0) true (resolved_m o)) eqn:Em;
    [| by eexists].
  destruct (from_option well_formed_scheme true (resolved_scheme o)) eqn:Es;
    [| by eexists].
  destruct (0 <? resolved_max_iter max_iter)%Z eqn:Emi; [| by eexists].
  destruct ((0 <=? resolved_warmup max_iter warmup)%Z &&
            (resolved_warmup max_iter warmup <? resolved_max_iter max_iter)%Z)
    eqn:Ewu; [| by eexists].
  destruct (length x_n =? length c_n) eqn:Elen; [| by eexists].
  exfalso.
  apply Z.ltb_lt in Emi. apply andb_true_iff in Ewu as [Ew1 Ew2].
  apply Z.leb_le in Ew1. apply Z.ltb_lt in Ew2. apply Nat.eqb_eq in Elen.
  destruct Hbad as [(m & Hm & Hle) | [(s & Hs & Hns) | [H | [H | H]]]];
    [| | lia | lia | done].
  - rewrite Hm in Em. simpl in Em. apply Z.ltb_lt in Em. lia.
  - rewrite Hs in Es. simpl in Es. by apply well_formed_scheme_spec in Es.
Qed.

End Validation.

(** ** The cluster arena *)

Section Arena.
Context {Cluster : Type}.
Implicit Types (c : list nat) (slots : list Cluster) (l : nat).

Lemma fst_imap_pair slots : fst <$> imap pair slots = seq 0 (length slots).
Proof.
  apply list_eq. intros i. rewrite list_lookup_fmap, list_lookup_imap.
  destruct (slots !! i) as [x |] eqn:Hi; simpl.
  - apply lookup_lt_Some in Hi. by rewrite lookup_seq_lt.
  - apply lookup_ge_None in Hi. by rewrite lookup_seq_ge.
Qed.

Lemma fst_filter_in c (ps : list (nat * Cluster)) :
  fst <$> filter (λ p, fst p ∈ c) ps = filter (λ l, l ∈ c) (fst <$> ps).
Proof.
  induction ps as [| p ps IH]; [done |].
  rewrite fmap_cons, !filter_cons.
  destruct (decide (p.1 ∈ c)); [rewrite fmap_cons; f_equal |]; exact IH.
Qed.

(** The labels whose slot survives, in increasing order. *)
Lemma retire_clusters_labels c slots :
  fst <$> filter (λ p, fst p ∈ c) (imap pair slots) =
  filter (λ l, l ∈ c) (seq 0 (length slots)).
Proof.
  rewrite <- fst_imap_pair. apply fst_filter_in.
Qed.

Lemma length_retire_clusters c slots :
  length (retire_clusters c slots) =
  length (filter (λ l, l ∈ c) (seq 0 (length slots))).
Proof.
  unfold retire_clusters. rewrite length_fmap.
  by rewrite <- retire_clusters_labels, length_fmap.
Qed.

(** The number of labels in use below a bound, counted on the list of
    candidate labels. *)
Lemma rank_as_length c l :
  rank c l = length (filter (λ j, j ∈ c) (seq 0 l)).
Proof.
  unfold rank.
  rewrite <- (size_list_to_set (C:=gset nat)
                (filter (λ j, j ∈ c) (seq 0 l))).
  - f_equal. apply set_eq. intros j.
    rewrite elem_of_filter, elem_of_labels, elem_of_list_to_set,
      list_elem_of_filter, elem_of_seq. split; intros []; split; auto; lia.
  - apply NoDup_filter, NoDup_seq.
Qed.

Lemma length_retire_clusters_le c slots :
  length (retire_clusters c slots) ≤ cluster_count c.
Proof.
  rewrite length_retire_clusters, <- rank_as_length.
  unfold rank, cluster_count. apply subseteq_size.
  intros j [_ Hj]%elem_of_filter. exact Hj.
Qed.



End Arena.

(** ** The loop *)

Section Loop.
Context {PM MM Obs Cluster Gen : Type}.
Variable type_of_mixture : MM → MixtureModel.
Variable sweep :
  SamplerObject PM MM → Plan → list Obs →
  Chain Cluster Gen → Chain Cluster Gen.
Variable self : SamplerObject PM MM.
Variable plan : Plan.
Variable x_n : list Obs.


(** The last iteration of a longer run is one more turn of the body. *)
Lemma run_snoc (n : nat) (st : RunState Cluster Gen) :
  run type_of_mixture sweep self plan x_n (S n) st =
  advance type_of_mixture sweep self plan x_n
    (run type_of_mixture sweep self plan x_n n st).
Proof.
  revert st. induction n as [| n IH]; intros st; [done |].
  change (run type_of_mixture sweep self plan x_n (S (S n)) st)
    with (run type_of_mixture sweep self plan x_n (S n)
            (advance type_of_mixture sweep self plan x_n st)).
  by rewrite IH.
Qed.

(** The loop invariant: after [n] turns the counter reads [n], the chain
    has made [n] iterations, and the trace holds the snapshots of the
    iterations past the warm-up boundary, oldest first. *)
Lemma run_invariant (n : nat) (st : RunState Cluster Gen) :
  iteration st = 0 → trace st = [] →
  iteration (run type_of_mixture sweep self plan x_n n st) = n ∧
  chain (run type_of_mixture sweep self plan x_n n st) =
    chain_after sweep self plan x_n (chain st) n ∧
  trace (run type_of_mixture sweep self plan x_n n st) =
    (λ j, snapshot type_of_mixture self
            (chain_after sweep self plan x_n (chain st) j))
    <$> seq (S (plan_warmup plan)) (n - plan_warmup plan).
Proof.
  intros Hit Htr. induction n as [| n (IHi & IHc & IHt)].
  - simpl. by rewrite Hit, Htr.
  - rewrite run_snoc. unfold advance at 1 2 3. simpl.
    rewrite IHi, IHc, IHt. split; [done |]. split; [done |].
    case_bool_decide as Hw.
    + replace (S n - plan_warmup plan) with (S (n - plan_warmup plan))
        by lia.
      rewrite seq_S, fmap_app. simpl.
      by replace (plan_warmup plan + (n - plan_warmup plan)) with n by lia.
    + by replace (S n - plan_warmup plan) with (n - plan_warmup plan)
        by lia.
Qed.

End Loop.

(** ** The entry point *)

Section Claims.
Context {PM MM Obs Cluster Gen : Type}.
Variable type_of_process : PM → ProcessModel.
Variable type_of_mixture : MM → MixtureModel.
Variable seed_generator : Z → Gen.
Variable initial_clusters :
  SamplerObject PM MM → list Obs → list nat → Gen → list Cluster * Gen.
Variable sweep :
  SamplerObject PM MM → Plan → list Obs →
  Chain Cluster Gen → Chain Cluster Gen.

Local Abbreviation check := (check_compatibility type_of_process type_of_mixture).
Local Abbreviation construct := (new_sampler type_of_process type_of_mixture).
Local Abbreviation call :=
  (infer type_of_process type_of_mixture seed_generator initial_clusters
     sweep).
Local Abbreviation loop := (run type_of_mixture sweep).
Local Abbreviation first_state := (start initial_clusters).
Local Abbreviation generator_for := (resolve_generator seed_generator).

Lemma validate_parameters_error {k : Sampler} (o : Options k)
    (x_n : list Obs) (c_n : list nat) (max_iter warmup : option Z)
    (e : Error) :
  validate_parameters o x_n c_n max_iter warmup = inl e →
  ∃ p, e = InvalidParameterError p.
Proof.
  unfold validate_parameters.
  destruct (from_option (Z.ltb 0) true (resolved_m o)); simpl;
    [| intros [= <-]; by eexists].
  destruct (from_option well_formed_scheme true (resolved_scheme o)); simpl;
    [| intros [= <-]; by eexists].
  destruct (0 <? resolved_max_iter max_iter)%Z; simpl;
    [| intros [= <-]; by eexists].
  destruct ((0 <=? resolved_warmup max_iter warmup)%Z &&
            (resolved_warmup max_iter warmup <? resolved_max_iter max_iter)%Z);
    simpl; [| intros [= <-]; by eexists].
  destruct (length x_n =? length c_n); simpl;
    [discriminate | intros [= <-]; by eexists].
Qed.

Lemma infer_incompatible (ambient : Gen) (self : SamplerObject PM MM)
    (x_n : list Obs) (c_n : list nat) (o : Options (sampler_class self))
    (max_iter warmup : option Z) (rs : RandomState Gen) (e : Error) :
  check (sampler_class self) (process_model self) (mixture_model self) =
    inl e →
  call ambient self x_n c_n o max_iter warmup rs =
    {| outcome := inl e; iterations_run := 0 |}.
Proof. intros H. unfold infer. by rewrite H. Qed.

Lemma infer_invalid (ambient : Gen) (self : SamplerObject PM MM)
    (x_n : list Obs) (c_n : list nat) (o : Options (sampler_class self))
    (max_iter warmup : option Z) (rs : RandomState Gen) (e : Error) :
  check (sampler_class self) (process_model self) (mixture_model self) =
    inr () →
  validate_parameters o x_n c_n max_iter warmup = inl e →
  call ambient self x_n c_n o max_iter warmup rs =
    {| outcome := inl e; iterations_run := 0 |}.
Proof. intros Hc Hv. unfold infer. rewrite Hc. simpl. by rewrite Hv. Qed.

Lemma infer_valid (ambient : Gen) (self : SamplerObject PM MM)
    (x_n : list Obs) (c_n : list nat) (o : Options (sampler_class self))
    (max_iter warmup : option Z) (rs : RandomState Gen) (plan : Plan) :
  check (sampler_class self) (process_model self) (mixture_model self) =
    inr () →
  validate_parameters o x_n c_n max_iter warmup = inr plan →
  call ambient self x_n c_n o max_iter warmup rs =
    let st := loop self plan x_n (plan_max_iter plan)
                (first_state self x_n c_n (generator_for ambient rs)) in
    {| outcome := inr (trace st); iterations_run := iteration st |}.
Proof. intros Hc Hv. unfold infer. rewrite Hc. simpl. by rewrite Hv. Qed.

(** A call on a sampler whose models are compatible never raises
    [IncompatibleModelError]. *)
Lemma infer_compatible (ambient : Gen) (self : SamplerObject PM MM)
    (x_n : list Obs) (c_n : list nat) (o : Options (sampler_class self))
    (max_iter warmup : option Z) (rs : RandomState Gen) :
  check (sampler_class self) (process_model self) (mixture_model self) =
    inr () →
  ∀ why, outcome (call ambient self x_n c_n o max_iter warmup rs) ≠
           inl (IncompatibleModelError why).
Proof.
  intros Hc why.
  destruct (validate_parameters o x_n c_n max_iter warmup) as [e | plan]
    eqn:Hv.
  - rewrite (infer_invalid _ _ _ _ _ _ _ _ _ Hc Hv). simpl.
    apply validate_parameters_error in Hv as [p ->]. congruence.
  - rewrite (infer_valid _ _ _ _ _ _ _ _ _ Hc Hv). simpl. congruence.
Qed.

(** C1. A model whose concrete type is outside the sampler's declared set
    is rejected with [IncompatibleModelError], whichever of the three
    sampler classes is used: the constructor raises it, a call of [infer]
    on such a sampler raises it with no iteration run, and the error
    names the offending class and the declared set.  No other model is
    substituted: the result is the error. *)
Theorem incompatible_model_rejected (k : Sampler) (pm : PM) (mm : MM) :
  type_of_process pm ∉ compatible_process_models k ∨
  type_of_mixture mm ∉ compatible_mixture_models k →
  ∃ why,
    (why = ProcessNotAllowed (type_of_process pm)
             (compatible_process_models k) ∧
     type_of_process pm ∉ compatible_process_models k
     ∨
     why = MixtureNotAllowed (type_of_mixture mm)
             (compatible_mixture_models k) ∧
     type_of_mixture mm ∉ compatible_mixture_models k) ∧
    construct k pm mm = inl (IncompatibleModelError why) ∧
    ∀ ambient x_n c_n (o : Options k) max_iter warmup rs,
      call ambient (Build_SamplerObject k pm mm) x_n c_n o max_iter warmup rs
      = {| outcome := inl (IncompatibleModelError why);
           iterations_run := 0 |}.
Proof.
  intros Hbad.
  destruct (check_compatibility_fail type_of_process type_of_mixture
              k pm mm Hbad) as (why & Hc & Hwhy).
  exists why. split; [exact Hwhy |]. split.
  - unfold new_sampler. by rewrite Hc.
  - intros. by apply infer_incompatible.
Qed.

(** C2. The process models declared by [SliceSampler] are exactly [{DP}],
    so a slice sampler given an MFM process model is rejected with
    [IncompatibleModelError] by the constructor and by [infer], before
    any iteration. *)
Theorem slice_sampler_rejects_MFM (pm : PM) (mm : MM) :
  type_of_process pm = MFM →
  compatible_process_models SliceSampler = {[DP]} ∧
  construct SliceSampler pm mm =
    inl (IncompatibleModelError (ProcessNotAllowed MFM {[DP]})) ∧
  ∀ ambient x_n c_n (o : Options SliceSampler) max_iter warmup rs,
    call ambient (Build_SamplerObject SliceSampler pm mm)
      x_n c_n o max_iter warmup rs
    = {| outcome := inl (IncompatibleModelError
                           (ProcessNotAllowed MFM {[DP]}));
         iterations_run := 0 |}.
Proof.
  intros Hpm.
  assert (compatible_process_models SliceSampler = {[DP]}) as Hset.
  { apply set_eq. intros p. rewrite compatible_process_models_spec.
    by rewrite elem_of_singleton. }
  assert (check SliceSampler pm mm =
          inl (IncompatibleModelError (ProcessNotAllowed MFM {[DP]})))
    as Hc.
  { rewrite check_compatibility_process.
    - by rewrite Hpm, Hset.
    - rewrite compatible_process_models_spec, Hpm. discriminate. }
  split; [exact Hset |]. split.
  - unfold new_sampler. by rewrite Hc.
  - intros. by apply infer_incompatible.
Qed.

(** C3. On a sampler that was constructed, a call of [infer] with an
    invalid parameter configuration (m ≤ 0, max_iter ≤ 0, warmup outside
    0 ≤ warmup < max_iter, a malformed scheme, or x_n and c_n of different
    lengths) raises [InvalidParameterError] with no iteration run. *)
Theorem invalid_parameters_rejected (k : Sampler) (pm : PM) (mm : MM)
    (self : SamplerObject PM MM) (ambient : Gen)
    (x_n : list Obs) (c_n : list nat) (o : Options (sampler_class self))
    (max_iter warmup : option Z) (rs : RandomState Gen) :
  construct k pm mm = inr self →
  invalid_parameters o x_n c_n max_iter warmup →
  ∃ p, call ambient self x_n c_n o max_iter warmup rs =
         {| outcome := inl (InvalidParameterError p);
            iterations_run := 0 |}.
Proof.
  intros Hnew Hbad.
  apply new_sampler_inr in Hnew as (Hself & Hp & Hm).
  apply validate_parameters_invalid in Hbad as [p Hv].
  exists p. apply infer_invalid; [| exact Hv].
  subst self. by apply check_compatibility_pass.
Qed.

(** The three boundary cases named by the interface description. *)

Lemma constructed_is_compatible (k : Sampler) (pm : PM) (mm : MM)
    (self : SamplerObject PM MM) :
  construct k pm mm = inr self →
  check (sampler_class self) (process_model self) (mixture_model self) =
    inr ().
Proof.
  intros (-> & Hp & Hm)%new_sampler_inr. by apply check_compatibility_pass.
Qed.

Lemma infer_m_zero (k : Sampler) (pm : PM) (mm : MM)
    (self : SamplerObject PM MM) (ambient : Gen)
    (x_n : list Obs) (c_n : list nat) (o : Options (sampler_class self))
    (max_iter warmup : option Z) (rs : RandomState Gen) :
  construct k pm mm = inr self →
  arg_m o = Some (Some 0%Z) →
  call ambient self x_n c_n o max_iter warmup rs =
    {| outcome := inl (InvalidParameterError param_m);
       iterations_run := 0 |}.
Proof.
  intros Hnew Hm. apply infer_invalid.
  - by eapply constructed_is_compatible.
  - unfold validate_parameters, resolved_m. by rewrite Hm.
Qed.

Lemma infer_max_iter_zero (k : Sampler) (pm : PM) (mm : MM)
    (self : SamplerObject PM MM) (ambient : Gen)
    (x_n : list Obs) (c_n : list nat) (o : Options (sampler_class self))
    (warmup : option Z) (rs : RandomState Gen) :
  construct k pm mm = inr self →
  ∃ p, call ambient self x_n c_n o (Some 0%Z) warmup rs =
         {| outcome := inl (InvalidParameterError p);
            iterations_run := 0 |}.
Proof.
  intros Hnew.
  destruct (validate_parameters_invalid o x_n c_n (Some 0%Z) warmup)
    as [p Hv].
  { right. right. left. simpl. lia. }
  exists p. apply infer_invalid; [| exact Hv].
  by eapply constructed_is_compatible.
Qed.

Lemma infer_warmup_equals_max_iter (k : Sampler) (pm : PM) (mm : MM)
    (self : SamplerObject PM MM) (ambient : Gen)
    (x_n : list Obs) (c_n : list nat) (o : Options (sampler_class self))
    (max_iter : option Z) (rs : RandomState Gen) :
  construct k pm mm = inr self →
  ∃ p, call ambient self x_n c_n o max_iter
         (Some (resolved_max_iter max_iter)) rs =
         {| outcome := inl (InvalidParameterError p);
            iterations_run := 0 |}.
Proof.
  intros Hnew.
  destruct (validate_parameters_invalid o x_n c_n max_iter
              (Some (resolved_max_iter max_iter))) as [p Hv].
  { right. right. right. left. simpl. lia. }
  exists p. apply infer_invalid; [| exact Hv].
  by eapply constructed_is_compatible.
Qed.

(** C4. For a valid call (compatible models, max_iter > 0,
    0 ≤ warmup < max_iter and the other constraints met) [infer] returns
    a trace of exactly max_iter − warmup entries, and entry [i] is the
    snapshot taken after iteration warmup + 1 + i: one entry per
    iteration past the warm-up, in iteration order. *)
Theorem trace_length (ambient : Gen) (self : SamplerObject PM MM)
    (x_n : list Obs) (c_n : list nat) (o : Options (sampler_class self))
    (max_iter warmup : option Z) (rs : RandomState Gen) :
  type_of_process (process_model self) ∈
    compatible_process_models (sampler_class self) →
  type_of_mixture (mixture_model self) ∈
    compatible_mixture_models (sampler_class self) →
  valid_parameters o x_n c_n max_iter warmup →
  ∃ t,
    call ambient self x_n c_n o max_iter warmup rs =
      {| outcome := inr t;
         iterations_run := Z.to_nat (resolved_max_iter max_iter) |} ∧
    length t =
      Z.to_nat (resolved_max_iter max_iter -
                resolved_warmup max_iter warmup) ∧
    ∀ i, i < length t →
      t !! i =
      Some (snapshot type_of_mixture self
              (chain_after sweep self (plan_of o max_iter warmup) x_n
                 (chain (first_state self x_n c_n (generator_for ambient rs)))
                 (Z.to_nat (resolved_warmup max_iter warmup) + 1 + i))).
Proof.
  intros Hp Hm Hvalid.
  pose proof (check_compatibility_pass type_of_process type_of_mixture
                _ _ _ Hp Hm) as Hc.
  pose proof (validate_parameters_valid o x_n c_n max_iter warmup Hvalid)
    as Hv.
  destruct Hvalid as (_ & _ & Hmi & Hwu & _).
  rewrite (infer_valid ambient self x_n c_n o max_iter warmup rs _ Hc Hv).
  set (st0 := first_state self x_n c_n (generator_for ambient rs)).
  destruct (run_invariant type_of_mixture sweep self
              (plan_of o max_iter warmup) x_n
              (plan_max_iter (plan_of o max_iter warmup)) st0
              eq_refl eq_refl) as (Hit & _ & Htr).
  eexists. split; [| split].
  - cbv zeta. by rewrite Hit.
  - rewrite Htr, length_fmap, length_seq.
    cbn [plan_of plan_max_iter plan_warmup]. lia.
  - intros i Hi. rewrite Htr in Hi |- *.
    rewrite length_fmap, length_seq in Hi.
    rewrite list_lookup_fmap, lookup_seq_lt by done.
    cbn [fmap option_fmap option_map plan_of plan_warmup].
    do 3 f_equal. lia.
Qed.


(** C7. [GibbsSampler] declares both process models, DP and MFM, and all
    three Gaussian mixture models; built with any of the six combinations
    it passes the compatibility check, at construction and in [infer]. *)
Theorem gibbs_sampler_accepts_all (pm : PM) (mm : MM) :
  type_of_process pm = DP ∨ type_of_process pm = MFM →
  type_of_mixture mm = CollapsedConjugateGaussianMixture ∨
  type_of_mixture mm = ConjugateGaussianMixture ∨
  type_of_mixture mm = NonconjugateGaussianMixture →
  (DP ∈ compatible_process_models GibbsSampler ∧
   MFM ∈ compatible_process_models GibbsSampler) ∧
  (CollapsedConjugateGaussianMixture ∈
     compatible_mixture_models GibbsSampler ∧
   ConjugateGaussianMixture ∈ compatible_mixture_models GibbsSampler ∧
   NonconjugateGaussianMixture ∈ compatible_mixture_models GibbsSampler) ∧
  check GibbsSampler pm mm = inr () ∧
  construct GibbsSampler pm mm =
    inr (Build_SamplerObject GibbsSampler pm mm) ∧
  ∀ ambient x_n c_n (o : Options GibbsSampler) max_iter warmup rs why,
    outcome (call ambient (Build_SamplerObject GibbsSampler pm mm)
               x_n c_n o max_iter warmup rs)
    ≠ inl (IncompatibleModelError why).
Proof.
  intros Hp Hm.
  assert (check GibbsSampler pm mm = inr ()) as Hc.
  { apply check_compatibility_pass.
    - by apply compatible_process_models_spec.
    - by apply compatible_mixture_models_spec. }
  split; [| split; [| split; [exact Hc | split]]].
  - split; apply compatible_process_models_spec; auto.
  - repeat split; apply compatible_mixture_models_spec; auto.
  - unfold new_sampler. by rewrite Hc.
  - intros. by apply infer_compatible.
Qed.


(** C9. [CollapsedConjugateGaussianMixture] is in the declared mixture
    set of [GibbsSampler] only; [RGMSSampler] and [SliceSampler] leave it
    out, so either of them given a collapsed mixture model is rejected
    with [IncompatibleModelError]. *)
Theorem collapsed_mixture_needs_gibbs (k : Sampler) (pm : PM) (mm : MM) :
  k = RGMSSampler ∨ k = SliceSampler →
  type_of_mixture mm = CollapsedConjugateGaussianMixture →
  (CollapsedConjugateGaussianMixture
     ∉ compatible_mixture_models RGMSSampler) ∧
  (CollapsedConjugateGaussianMixture
     ∉ compatible_mixture_models SliceSampler) ∧
  (∀ k', CollapsedConjugateGaussianMixture ∈ compatible_mixture_models k'
         ↔ k' = GibbsSampler) ∧
  ∃ why,
    construct k pm mm = inl (IncompatibleModelError why) ∧
    ∀ ambient x_n c_n (o : Options k) max_iter warmup rs,
      call ambient (Build_SamplerObject k pm mm) x_n c_n o max_iter warmup rs
      = {| outcome := inl (IncompatibleModelError why);
           iterations_run := 0 |}.
Proof.
  intros Hk Hmm.
  assert (∀ k', CollapsedConjugateGaussianMixture ∈
                  compatible_mixture_models k' ↔ k' = GibbsSampler)
    as Honly.
  { intros k'. rewrite compatible_mixture_models_spec.
    destruct k'; split; intros H; try done; try tauto;
      destruct H as [H | H]; discriminate. }
  split; [by rewrite Honly |]. split; [by rewrite Honly |].
  split; [exact Honly |].
  assert (type_of_mixture mm ∉ compatible_mixture_models k) as Hout.
  { rewrite Hmm, Honly. destruct Hk as [-> | ->]; discriminate. }
  destruct (check_compatibility_fail type_of_process type_of_mixture
              k pm mm (or_intror Hout)) as (why & Hc & _).
  exists why. split.
  - unfold new_sampler. by rewrite Hc.
  - intros. by apply infer_incompatible.
Qed.

(** C10. All three sampler classes declare DP among their process models
    and both [ConjugateGaussianMixture] and [NonconjugateGaussianMixture]
    among their mixture models, so a DP process model with either
    non-collapsed Gaussian mixture passes the compatibility check of each
    of them. *)
Theorem dp_with_noncollapsed_accepted (k : Sampler) (pm : PM) (mm : MM) :
  type_of_process pm = DP →
  type_of_mixture mm = ConjugateGaussianMixture ∨
  type_of_mixture mm = NonconjugateGaussianMixture →
  (∀ k', DP ∈ compatible_process_models k' ∧
         ConjugateGaussianMixture ∈ compatible_mixture_models k' ∧
         NonconjugateGaussianMixture ∈ compatible_mixture_models k') ∧
  check k pm mm = inr () ∧
  construct k pm mm = inr (Build_SamplerObject k pm mm) ∧
  ∀ ambient x_n c_n (o : Options k) max_iter warmup rs why,
    outcome (call ambient (Build_SamplerObject k pm mm)
               x_n c_n o max_iter warmup rs)
    ≠ inl (IncompatibleModelError why).
Proof.
  intros Hp Hm.
  assert (∀ k', DP ∈ compatible_process_models k' ∧
                ConjugateGaussianMixture ∈ compatible_mixture_models k' ∧
                NonconjugateGaussianMixture ∈ compatible_mixture_models k')
    as Hall.
  { intros k'.
    rewrite compatible_process_models_spec, !compatible_mixture_models_spec.
    destruct k'; auto. }
  assert (check k pm mm = inr ()) as Hc.
  { apply check_compatibility_pass.
    - rewrite Hp. apply Hall.
    - destruct Hm as [-> | ->]; apply Hall. }
  split; [exact Hall |]. split; [exact Hc |]. split.
  - unfold new_sampler. by rewrite Hc.
  - intros. by apply infer_compatible.
Qed.

End Claims.

(** ** The properties at concrete calls

    Each statement below instantiates one of the theorems above on the
    collaborators of [Walkthrough]. *)

Lemma incompatible_model_rejected_witness :
  (Walkthrough.class_of_process MFM ∉ compatible_process_models SliceSampler ∨
   Walkthrough.class_of_mixture ConjugateGaussianMixture
     ∉ compatible_mixture_models SliceSampler) ∧
  ∃ why,
    (why = ProcessNotAllowed MFM (compatible_process_models SliceSampler) ∧
     MFM ∉ compatible_process_models SliceSampler
     ∨
     why = MixtureNotAllowed ConjugateGaussianMixture
             (compatible_mixture_models SliceSampler) ∧
     ConjugateGaussianMixture ∉ compatible_mixture_models SliceSampler) ∧
    Walkthrough.construct SliceSampler MFM ConjugateGaussianMixture =
      inl (IncompatibleModelError why) ∧
    ∀ ambient x_n c_n (o : Options SliceSampler) max_iter warmup rs,
      Walkthrough.call ambient
        (Build_SamplerObject SliceSampler MFM ConjugateGaussianMixture)
        x_n c_n o max_iter warmup rs
      = {| outcome := inl (IncompatibleModelError why);
           iterations_run := 0 |}.
Proof.
  assert (Walkthrough.class_of_process MFM
            ∉ compatible_process_models SliceSampler) as Hout.
  { intros H. vm_compute in H. discriminate H. }
  split; [left; exact Hout |].
  apply (incompatible_model_rejected
           Walkthrough.class_of_process Walkthrough.class_of_mixture
           Walkthrough.seed Walkthrough.slots_for Walkthrough.open_cluster
           SliceSampler MFM ConjugateGaussianMixture).
  left; exact Hout.
Defined.

Lemma slice_sampler_rejects_MFM_witness :
  Walkthrough.class_of_process MFM = MFM ∧
  compatible_process_models SliceSampler = {[DP]} ∧
  Walkthrough.construct SliceSampler MFM NonconjugateGaussianMixture =
    inl (IncompatibleModelError (ProcessNotAllowed MFM {[DP]})) ∧
  ∀ ambient x_n c_n (o : Options SliceSampler) max_iter warmup rs,
    Walkthrough.call ambient
      (Build_SamplerObject SliceSampler MFM NonconjugateGaussianMixture)
      x_n c_n o max_iter warmup rs
    = {| outcome := inl (IncompatibleModelError
                           (ProcessNotAllowed MFM {[DP]}));
         iterations_run := 0 |}.
Proof.
  split; [reflexivity |].
  apply (slice_sampler_rejects_MFM
           Walkthrough.class_of_process Walkthrough.class_of_mixture
           Walkthrough.seed Walkthrough.slots_for Walkthrough.open_cluster
           MFM NonconjugateGaussianMixture).
  reflexivity.
Defined.

Lemma invalid_parameters_rejected_witness :
  Walkthrough.construct GibbsSampler DP ConjugateGaussianMixture =
    inr Walkthrough.gibbs_dp_conjugate ∧
  invalid_parameters (Some 0%Z : Options GibbsSampler)
    [1; 2; 3]%Z [0; 1; 1] None None ∧
  ∃ p,
    Walkthrough.call 7%Z Walkthrough.gibbs_dp_conjugate
      [1; 2; 3]%Z [0; 1; 1] (Some 0%Z : Options GibbsSampler)
      None None Unseeded
    = {| outcome := inl (InvalidParameterError p); iterations_run := 0 |}.
Proof.
  assert (invalid_parameters (Some 0%Z : Options GibbsSampler)
            [1; 2; 3]%Z [0; 1; 1] None None) as Hbad.
  { left. exists 0%Z. split; [reflexivity | lia]. }
  split; [reflexivity |]. split; [exact Hbad |].
  apply (invalid_parameters_rejected
           Walkthrough.class_of_process Walkthrough.class_of_mixture
           Walkthrough.seed Walkthrough.slots_for Walkthrough.open_cluster
           GibbsSampler DP ConjugateGaussianMixture
           Walkthrough.gibbs_dp_conjugate 7%Z [1; 2; 3]%Z [0; 1; 1]
           (Some 0%Z : Options GibbsSampler) None None Unseeded).
  - reflexivity.
  - exact Hbad.
Defined.

Lemma trace_length_witness :
  DP ∈ compatible_process_models GibbsSampler ∧
  ConjugateGaussianMixture ∈ compatible_mixture_models GibbsSampler ∧
  valid_parameters (None : Options GibbsSampler)
    [1; 2; 3]%Z [0; 1; 1] (Some 4%Z) (Some 1%Z) ∧
  ∃ t,
    Walkthrough.call 7%Z Walkthrough.gibbs_dp_conjugate
      [1; 2; 3]%Z [0; 1; 1] (None : Options GibbsSampler)
      (Some 4%Z) (Some 1%Z) Unseeded
    = {| outcome := inr t; iterations_run := 4 |} ∧
    length t = 3 ∧
    ∀ i, i < length t →
      t !! i =
      Some (snapshot Walkthrough.class_of_mixture
              Walkthrough.gibbs_dp_conjugate
              (chain_after Walkthrough.open_cluster
                 Walkthrough.gibbs_dp_conjugate
                 (plan_of (None : Options GibbsSampler)
                    (Some 4%Z) (Some 1%Z))
                 [1; 2; 3]%Z
                 (chain (start Walkthrough.slots_for
                           Walkthrough.gibbs_dp_conjugate
                           [1; 2; 3]%Z [0; 1; 1] 7%Z))
                 (1 + 1 + i))).
Proof.
  assert (DP ∈ compatible_process_models GibbsSampler) as Hp.
  { vm_compute. reflexivity. }
  assert (ConjugateGaussianMixture ∈ compatible_mixture_models GibbsSampler)
    as Hm.
  { vm_compute. reflexivity. }
  assert (valid_parameters (None : Options GibbsSampler)
            [1; 2; 3]%Z [0; 1; 1] (Some 4%Z) (Some 1%Z)) as Hvalid.
  { split; [| split; [| split; [| split]]].
    - intros m [= <-]. reflexivity.
    - intros s [=].
    - reflexivity.
    - split; [vm_compute; discriminate | reflexivity].
    - reflexivity. }
  split; [exact Hp |]. split; [exact Hm |]. split; [exact Hvalid |].
  exact (trace_length
           Walkthrough.class_of_process Walkthrough.class_of_mixture
           Walkthrough.seed Walkthrough.slots_for Walkthrough.open_cluster
           7%Z Walkthrough.gibbs_dp_conjugate [1; 2; 3]%Z [0; 1; 1]
           (None : Options GibbsSampler) (Some 4%Z) (Some 1%Z) Unseeded
           Hp Hm Hvalid).
Defined.

Lemma gibbs_sampler_accepts_all_witness :
  (Walkthrough.class_of_process MFM = DP ∨
   Walkthrough.class_of_process MFM = MFM) ∧
  (Walkthrough.class_of_mixture CollapsedConjugateGaussianMixture =
     CollapsedConjugateGaussianMixture ∨
   Walkthrough.class_of_mixture CollapsedConjugateGaussianMixture =
     ConjugateGaussianMixture ∨
   Walkthrough.class_of_mixture CollapsedConjugateGaussianMixture =
     NonconjugateGaussianMixture) ∧
  Walkthrough.construct GibbsSampler MFM CollapsedConjugateGaussianMixture =
    inr (Build_SamplerObject GibbsSampler MFM
           CollapsedConjugateGaussianMixture).
Proof.
  split; [right; reflexivity |]. split; [left; reflexivity |].
  apply (gibbs_sampler_accepts_all
           Walkthrough.class_of_process Walkthrough.class_of_mixture
           Walkthrough.seed Walkthrough.slots_for Walkthrough.open_cluster
           MFM CollapsedConjugateGaussianMixture).
  - right; reflexivity.
  - left; reflexivity.
Defined.

Lemma collapsed_mixture_needs_gibbs_witness :
  (RGMSSampler = RGMSSampler ∨ RGMSSampler = SliceSampler) ∧
  Walkthrough.class_of_mixture CollapsedConjugateGaussianMixture =
    CollapsedConjugateGaussianMixture ∧
  ∃ why,
    Walkthrough.construct RGMSSampler DP CollapsedConjugateGaussianMixture =
      inl (IncompatibleModelError why).
Proof.
  split; [left; reflexivity |]. split; [reflexivity |].
  destruct (collapsed_mixture_needs_gibbs
              Walkthrough.class_of_process Walkthrough.class_of_mixture
              Walkthrough.seed Walkthrough.slots_for Walkthrough.open_cluster
              RGMSSampler DP CollapsedConjugateGaussianMixture
              (or_introl eq_refl) eq_refl)
    as (_ & _ & _ & why & Hnew & _).
  exists why. exact Hnew.
Defined.

Lemma dp_with_noncollapsed_accepted_witness :
  Walkthrough.class_of_process DP = DP ∧
  (Walkthrough.class_of_mixture NonconjugateGaussianMixture =
     ConjugateGaussianMixture ∨
   Walkthrough.class_of_mixture NonconjugateGaussianMixture =
     NonconjugateGaussianMixture) ∧
  Walkthrough.construct SliceSampler DP NonconjugateGaussianMixture =
    inr (Build_SamplerObject SliceSampler DP NonconjugateGaussianMixture).
Proof.
  split; [reflexivity |]. split; [right; reflexivity |].
  apply (dp_with_noncollapsed_accepted
           Walkthrough.class_of_process Walkthrough.class_of_mixture
           Walkthrough.seed Walkthrough.slots_for Walkthrough.open_cluster
           SliceSampler DP NonconjugateGaussianMixture).
  - reflexivity.
  - right; reflexivity.
Defined.



(** ** Worked calls

    The model evaluated on small inputs. *)

Example retire_closes_gaps : retire [5; 2; 5; 9] = [1; 0; 1; 2].
Proof. vm_compute. reflexivity. Qed.

Example retire_keeps_compact : retire [0; 1; 1; 2; 0] = [0; 1; 1; 2; 0].
Proof. vm_compute. reflexivity. Qed.

Example retire_clusters_follows :
  retire_clusters [5; 2; 5; 9] [10; 11; 12; 13; 14; 15]%Z = [12; 15]%Z.
Proof. vm_compute. reflexivity. Qed.

Example default_warmup_of_odd_budget :
  resolved_warmup (Some 3%Z) None = 1%Z.
Proof. reflexivity. Qed.

Example gibbs_run_of_four :
  Walkthrough.call 7%Z Walkthrough.gibbs_dp_conjugate
    [1; 2; 3]%Z [0; 1; 1] (None : Options GibbsSampler)
    (Some 4%Z) (Some 1%Z) Unseeded
  = {| outcome := inr [([1; 0; 0], Some [7; 8]%Z);
                       ([1; 0; 0], Some [7; 9]%Z);
                       ([1; 0; 0], Some [7; 10]%Z)];
       iterations_run := 4 |}.
Proof. vm_compute. reflexivity. Qed.

Example gibbs_collapsed_records_no_parameters :
  Walkthrough.call 7%Z
    (Build_SamplerObject GibbsSampler DP CollapsedConjugateGaussianMixture)
    [1; 2]%Z [3; 3] (Some 2%Z : Options GibbsSampler)
    (Some 2%Z) None (Seed 5%Z)
  = {| outcome := inr [([1; 0], None)]; iterations_run := 2 |}.
Proof. vm_compute. reflexivity. Qed.

Example rgms_short_scheme :
  Walkthrough.call 7%Z
    (Build_SamplerObject RGMSSampler MFM NonconjugateGaussianMixture)
    [1; 2]%Z [0; 0] ((None, Some [5; 1; 1]%Z) : Options RGMSSampler)
    None None Unseeded
  = {| outcome := inl (InvalidParameterError param_scheme);
       iterations_run := 0 |}.
Proof. vm_compute. reflexivity. Qed.

Example slice_length_mismatch :
  Walkthrough.call 7%Z
    (Build_SamplerObject SliceSampler DP ConjugateGaussianMixture)
    [1; 2; 3]%Z [0; 0] (() : Options SliceSampler) None None Unseeded
  = {| outcome := inl (InvalidParameterError param_c_n);
       iterations_run := 0 |}.
Proof. vm_compute. reflexivity. Qed.

(** * How the declarations of the three classes relate

    The statements of this part compare the class attributes of
    [GibbsSampler], [RGMSSampler] and [SliceSampler] with one another;
    they use the declared sets only. *)

(** X1. The declarations are nested: whatever [SliceSampler] declares,
    every sampler declares, and whatever any sampler declares,
    [GibbsSampler] declares, for process models and for mixture models
    alike.  A pair of models fit for the slice sampler is fit for the
    other two, and one fit for the merge-split sampler is fit for the
    Gibbs sampler. *)
Theorem declared_sets_nested (k : Sampler) :
  compatible_process_models SliceSampler ⊆ compatible_process_models k ∧
  compatible_process_models k ⊆ compatible_process_models GibbsSampler ∧
  compatible_mixture_models SliceSampler ⊆ compatible_mixture_models k ∧
  compatible_mixture_models k ⊆ compatible_mixture_models GibbsSampler.
Proof.
  repeat split; intros x;
    rewrite ?compatible_process_models_spec, ?compatible_mixture_models_spec;
    destruct k; tauto.
Qed.

(** X2. [RGMSSampler] declares the process models of [GibbsSampler] and
    the mixture models of [SliceSampler].  It falls short of the Gibbs
    sampler by the collapsed mixture model alone and goes beyond the slice
    sampler by MFM alone. *)
Theorem rgms_differs_by_one_class :
  compatible_process_models RGMSSampler =
    compatible_process_models GibbsSampler ∧
  compatible_mixture_models RGMSSampler =
    compatible_mixture_models SliceSampler ∧
  compatible_mixture_models GibbsSampler ∖
    compatible_mixture_models RGMSSampler =
    {[CollapsedConjugateGaussianMixture]} ∧
  compatible_process_models RGMSSampler ∖
    compatible_process_models SliceSampler = {[MFM]}.
Proof.
  split; [reflexivity |]. split; [reflexivity |]. split.
  - apply set_eq. intros m.
    rewrite elem_of_difference, !compatible_mixture_models_spec,
      elem_of_singleton.
    split; [intros [[-> | [-> | ->]] Hn]; tauto |].
    intros ->. split; [tauto |]. intros [H | H]; discriminate H.
  - apply set_eq. intros p.
    rewrite elem_of_difference, !compatible_process_models_spec,
      elem_of_singleton.
    split; [intros [[-> | ->] Hn]; tauto |].
    intros ->. split; [tauto |]. discriminate.
Qed.

(** X3. The models fit for every sampler: DP is the one process model all
    three classes declare, and the two non-collapsed Gaussian mixtures are
    the mixture models all three declare. *)
Theorem declared_by_all_samplers (p : ProcessModel) (m : MixtureModel) :
  ((∀ k, p ∈ compatible_process_models k) ↔ p = DP) ∧
  ((∀ k, m ∈ compatible_mixture_models k) ↔
   m = ConjugateGaussianMixture ∨ m = NonconjugateGaussianMixture).
Proof.
  split; split.
  - intros H. by apply (compatible_process_models_spec SliceSampler).
  - intros -> k. apply compatible_process_models_spec. destruct k; tauto.
  - intros H. by apply (compatible_mixture_models_spec SliceSampler).
  - intros H k. apply compatible_mixture_models_spec. destruct k; tauto.
Qed.

(** X4. MFM is declared by [GibbsSampler] and by [RGMSSampler], and by no
    other class: a sampler declares MFM exactly when it is not the slice
    sampler. *)
Theorem MFM_declared_iff (k : Sampler) :
  MFM ∈ compatible_process_models k ↔ k ≠ SliceSampler.
Proof.
  rewrite compatible_process_models_spec.
  destruct k; split; intros H; try tauto; try discriminate; congruence.
Qed.

(** X5. No two of the classes declare the same compatibility: a sampler
    class is determined by its pair of declared sets. *)
Theorem sampler_determined_by_sets (k k' : Sampler) :
  compatible_process_models k = compatible_process_models k' →
  compatible_mixture_models k = compatible_mixture_models k' →
  k = k'.
Proof.
  intros Hp Hm.
  assert (bool_decide (MFM ∈ compatible_process_models k) =
          bool_decide (MFM ∈ compatible_process_models k')) as HMFM
    by (by rewrite Hp).
  assert (bool_decide (CollapsedConjugateGaussianMixture
                         ∈ compatible_mixture_models k) =
          bool_decide (CollapsedConjugateGaussianMixture
                         ∈ compatible_mixture_models k')) as Hcol
    by (by rewrite Hm).
  clear Hp Hm.
  destruct k, k'; try reflexivity; vm_compute in HMFM, Hcol; congruence.
Qed.

Lemma sampler_determined_by_sets_witness :
  compatible_process_models RGMSSampler =
    compatible_process_models RGMSSampler ∧
  compatible_mixture_models RGMSSampler =
    compatible_mixture_models RGMSSampler ∧
  RGMSSampler = RGMSSampler.
Proof.
  split; [reflexivity |]. split; [reflexivity |].
  apply (sampler_determined_by_sets RGMSSampler RGMSSampler); reflexivity.
Defined.
